(** * dreambooth/utils.py: the call isolation wrapper and the tag sanitizer

    A shallow embedding of [wrap_gpu_call] and [sanitize_tags] (with the
    helpers they rely on) from [dreambooth/utils.py], and the properties
    of them that the specification states.

    Python text is a sequence of Unicode code points, so a [str] is a list
    of code points.  Mutable Python lists live in a store and are referred
    to by location, so that aliasing and in-place mutation are visible. *)

From Stdlib Require Import ZArith NArith List Ascii String DecimalString Lia.
From stdpp Require Import base option list gmap.

Local Open Scope N_scope.
Local Set Warnings "-register-all".

(** ** Python text *)

Definition char := N.
Definition str := list char.

(** A literal of the source, as the code points of its characters. *)
Fixpoint py (s : String.string) : str :=
  match s with
  | EmptyString => []
  | String a s' => N_of_ascii a :: py s'
  end.

Definition chr_space : char := 32.
Definition chr_underscore : char := 95.
Definition chr_comma : char := 44.
Definition chr_newline : char := 10.
Definition chr_amp : char := 38.
Definition chr_lt : char := 60.
Definition chr_gt : char := 62.
Definition chr_dquote : char := 34.
Definition chr_squote : char := 39.

(** [c in s] for a one-character [c]. *)
Definition char_in (c : char) (s : str) : bool := existsb (N.eqb c) s.

(** [s.replace(old, new)] for a one-character [old]. *)
Definition replace_char (old : char) (new : str) (s : str) : str :=
  flat_map (fun c => if c =? old then new else [c]) s.

(** [s.split(sep)] for a one-character [sep]: never the empty list. *)
Fixpoint split_on (sep : char) (s : str) : list str :=
  match s with
  | [] => [[]]
  | c :: s' =>
      if c =? sep then [] :: split_on sep s'
      else match split_on sep s' with
           | t :: ts => (c :: t) :: ts
           | [] => [[c]]
           end
  end.

(** The characters [str.strip()] removes: the ASCII ones
    (tab to carriage return, 0x1c to 0x1f, space) and the fixed list of
    Unicode white space of CPython's [_PyUnicode_IsWhitespace]. *)
Definition isspace (c : char) : bool :=
  ((9 <=? c) && (c <=? 13)) || ((28 <=? c) && (c <=? 32))
  || (c =? 133) || (c =? 160) || (c =? 5760)
  || ((8192 <=? c) && (c <=? 8202))
  || (c =? 8232) || (c =? 8233) || (c =? 8239) || (c =? 8287) || (c =? 12288).

Fixpoint lstrip (s : str) : str :=
  match s with
  | [] => []
  | c :: s' => if isspace c then lstrip s' else s
  end.

Definition rstrip (s : str) : str := rev (lstrip (rev s)).

Definition strip (s : str) : str := rstrip (lstrip s).

Definition ascii_isalnum (c : char) : bool :=
  ((48 <=? c) && (c <=? 57)) || ((65 <=? c) && (c <=? 90))
  || ((97 <=? c) && (c <=? 122)).

(** [html.escape(s)] of the standard library, with its default
    [quote=True]: five replacements in sequence, the ampersand first. *)
Definition html_escape (s : str) : str :=
  let s := replace_char chr_amp (py "&amp;") s in
  let s := replace_char chr_lt (py "&lt;") s in
  let s := replace_char chr_gt (py "&gt;") s in
  let s := replace_char chr_dquote (py "&quot;") s in
  replace_char chr_squote (py "&#x27;") s.

(** [str(n)] for a length. *)
Definition str_of_len (n : N) : str :=
  py (NilZero.string_of_uint (N.to_uint n)).

(** ** Tag sanitizing *)

Section Sanitize.

(** [str.isalnum] outside ASCII is a table of the Unicode database. *)
Variable unicode_isalnum : char -> bool.

Definition isalnum (c : char) : bool :=
  if c <? 128 then ascii_isalnum c else unicode_isalnum c.

Definition name_char (c : char) : bool := isalnum c || char_in c (py "._-").
Definition tags_char (c : char) : bool := isalnum c || char_in c (py "._-,").

Definition sanitize_name (name : str) : str := List.filter name_char name.

(** The body of the loop of [sanitize_tags]: [name], the accumulator, is
    assigned and never read. *)
Definition sanitize_tags_step (name : str) (tag : str) : str :=
  let tag := strip (replace_char chr_space [chr_underscore] tag) in
  List.filter name_char tag.

Definition sanitize_tags (name : str) : str :=
  let tags := split_on chr_comma name in
  let name := fold_left sanitize_tags_step tags [] in
  let name := replace_char chr_space [chr_underscore] name in
  List.filter tags_char name.

End Sanitize.

(** ** Values, the store and the shared status *)

(** Lists are mutable objects: a list value is a location of the store.
    Tuples, text and numbers are immutable and are values themselves. *)
Definition loc := positive.

Inductive value : Type :=
| VNone
| VBool (b : bool)
| VInt (z : Z)
| VStr (s : str)
| VTuple (vs : list value)
| VRef (l : loc).

(** A raised exception, as far as the wrapper looks at it:
    [type(e).__name__], [str(e)] and [isinstance(e, Exception)]. *)
Record exn : Type := Exn {
  exn_kind : str;
  exn_msg : str;
  exn_is_Exception : bool
}.

Inductive outcome (A : Type) : Type :=
| Ret (a : A)
| Raise (e : exn).
Arguments Ret {A} a.
Arguments Raise {A} e.

(** The fields of [db_shared.status] that this file reads or assigns. *)
Record Status : Type := mkStatus {
  textinfo : str;
  job : str;
  job_no : Z;
  job_count : Z;
  skipped : bool;
  interrupted : bool
}.

Definition set_job (v : str) (s : Status) : Status :=
  mkStatus (textinfo s) v (job_no s) (job_count s) (skipped s) (interrupted s).
Definition set_job_count (v : Z) (s : Status) : Status :=
  mkStatus (textinfo s) (job s) (job_no s) v (skipped s) (interrupted s).
Definition set_skipped (v : bool) (s : Status) : Status :=
  mkStatus (textinfo s) (job s) (job_no s) (job_count s) v (interrupted s).
Definition set_interrupted (v : bool) (s : Status) : Status :=
  mkStatus (textinfo s) (job s) (job_no s) (job_count s) (skipped s) v.

(** What a call can see and change: the shared status, the store of list
    objects and the text written to [sys.stderr]. *)
Record World : Type := mkWorld {
  status : Status;
  heap : gmap loc (list value);
  stderr : str
}.

Definition with_status (g : Status -> Status) (w : World) : World :=
  mkWorld (g (status w)) (heap w) (stderr w).
Definition with_heap (g : gmap loc (list value) -> gmap loc (list value))
    (w : World) : World :=
  mkWorld (status w) (g (heap w)) (stderr w).

(** [print(s, file=sys.stderr)] *)
Definition print_err (s : str) (w : World) : World :=
  mkWorld (status w) (heap w) (stderr w ++ s ++ [chr_newline]).

(** A new list object. *)
Definition alloc (xs : list value) (w : World) : loc * World :=
  let l := fresh (dom (heap w)) in
  (l, with_heap (insert l xs) w).

Definition type_name (v : value) : str :=
  match v with
  | VNone => py "NoneType"
  | VBool _ => py "bool"
  | VInt _ => py "int"
  | VStr _ => py "str"
  | VTuple _ => py "tuple"
  | VRef _ => py "list"
  end.

(** The [TypeError] of [a + [...]] when [a] is not a list. *)
Definition add_type_error (a : value) : exn :=
  let msg :=
    match a with
    | VStr _ | VTuple _ =>
        py "can only concatenate " ++ type_name a ++ py " (not "
        ++ [chr_dquote] ++ py "list" ++ [chr_dquote] ++ py ") to " ++ type_name a
    | _ =>
        py "unsupported operand type(s) for +: '" ++ type_name a
        ++ py "' and 'list'"
    end in
  Exn (py "TypeError") msg true.

(** [a + [y1, ..., yn]]: the list display is built, then [list.__add__]
    builds a third list and writes to neither operand.  Anything but a
    list on the left raises [TypeError]; a location outside the store
    denotes no list. *)
Definition add_list_display (a : value) (ys : list value) (w : World)
    : outcome value * World :=
  let (_, w) := alloc ys w in
  match a with
  | VRef la =>
      match heap w !! la with
      | Some xs => let (r, w) := alloc (xs ++ ys) w in (Ret (VRef r), w)
      | None => (Raise (add_type_error a), w)
      end
  | _ => (Raise (add_type_error a), w)
  end.

(** Keyword arguments of a call, in the order given. *)
Definition kwargs := list (str * value).

Fixpoint kw_get (k : str) (kw : kwargs) : option value :=
  match kw with
  | [] => None
  | (k', v) :: kw' => if decide (k' = k) then Some v else kw_get k kw'
  end.

Definition kw_del (k : str) (kw : kwargs) : kwargs :=
  List.filter (fun p => negb (bool_decide (fst p = k))) kw.

(** ** The call isolation wrapper *)

Definition len (s : str) : N := N.of_nat (length s).

Definition max_debug_str_len : N := 131072.

Definition truncation_note (n : N) : str :=
  py "(Argument list truncated at " ++ str_of_len max_debug_str_len
  ++ py "/" ++ str_of_len n ++ py " characters)".

(** Lines 198 to 200: the dump, cut, and the note when it was cut. *)
Definition print_arg_str (arg_str : str) (w : World) : World :=
  let w := print_err (take (N.to_nat max_debug_str_len) arg_str) w in
  if max_debug_str_len <? len arg_str
  then print_err (truncation_note (len arg_str)) w
  else w.

Definition error_html (e : exn) : str :=
  py "<div class='error'>"
  ++ html_escape (exn_kind e ++ py ": " ++ exn_msg e) ++ py "</div>".

(** Lines 212 to 214, shared by both paths. *)
Definition final_reset (w : World) : World :=
  let w := with_status (set_skipped false) w in
  let w := with_status (set_interrupted false) w in
  with_status (set_job_count 0%Z) w.

Definition extra_outputs_array_key : str := py "extra_outputs_array".

(** The value of the parameter [extra_outputs_array=extra_outputs] of [f]
    in a call with the keywords [kw]. *)
Definition bind_extra_outputs_array (extra_outputs : value) (kw : kwargs)
    : value :=
  match kw_get extra_outputs_array_key kw with
  | Some t => t
  | None => extra_outputs
  end.

(** What the wrapper takes from its surroundings. *)
Record Host : Type := mkHost {
  (** [status.begin()] and [status.end()] are defined in [db_shared]:
      updates of the status object (begin marks it busy, end idle). *)
  status_begin : Status -> Status;
  status_end : Status -> Status;
  (** [str(args)] and [str(kwargs)] of the interpreter; list arguments
      are printed from the store.  Either can raise: [ValueError] for an
      integer of too many digits, [RecursionError] for deep nesting. *)
  str_args : gmap loc (list value) -> list value -> outcome str;
  str_kwargs : gmap loc (list value) -> kwargs -> outcome str;
  (** [traceback.format_exc()] while the exception is handled. *)
  format_exc : exn -> str
}.

Section Wrapper.

Variable host : Host.

(** The job: it returns or raises, and may change the world. *)
Definition job_fun : Type :=
  list value -> kwargs -> World -> outcome value * World.

(** Lines 188 and 189: [status.begin()], then the job. *)
Definition call_job (func : job_fun) (args : list value) (kwargs : kwargs)
    (w : World) : outcome value * World :=
  let w := with_status (status_begin host) w in
  func args kwargs w.

(** Line 197: [str(args)], then [str(kwargs)]; what either raises
    leaves the line. *)
Definition arg_str_of (args : list value) (kwargs : kwargs) (w : World)
    : outcome str :=
  match str_args host (heap w) args with
  | Raise e => Raise e
  | Ret text_of_args =>
      match str_kwargs host (heap w) kwargs with
      | Raise e => Raise e
      | Ret text_of_kwargs =>
          Ret (py "Arguments: " ++ text_of_args ++ py " " ++ text_of_kwargs)
      end
  end.

(** Lines 193 to 210, the handler of [except Exception as e]: its value
    is [res], unless line 197 or the concatenation of line 210 raises;
    what is raised in the handler leaves it. *)
Definition except_block (e : exn) (extra_outputs_array : value)
    (args : list value) (kwargs : kwargs) (w : World)
    : outcome value * World :=
  let w := print_err (py "Error completing request") w in
  match arg_str_of args kwargs w with
  | Raise e' => (Raise e', w)
  | Ret arg_str =>
      let w := print_arg_str arg_str w in
      let w := print_err (format_exc host e) w in
      let w := with_status (set_job []) w in
      let w := with_status (set_job_count 0%Z) w in
      let '(extra_outputs_array, w) :=
        match extra_outputs_array with
        | VNone => let (l, w) := alloc [VNone; VStr []] w in (VRef l, w)
        | v => (v, w)
        end in
      add_list_display extra_outputs_array [VStr (error_html e)] w
  end.

(** Lines 187 to 210, the [try] statement: [res], or the exception that
    leaves it. *)
Definition try_block (func : job_fun) (extra_outputs_array : value)
    (args : list value) (kwargs : kwargs) (w : World)
    : outcome value * World :=
  match call_job func args kwargs w with
  | (Ret res, w) => (Ret res, with_status (status_end host) w)
  | (Raise e, w) =>
      if exn_is_Exception e
      then except_block e extra_outputs_array args kwargs w
      else (Raise e, w)
  end.

(** The body of [f], its parameters bound: the [try] statement, then
    lines 212 to 216. *)
Definition f_body (func : job_fun) (extra_outputs_array : value)
    (args : list value) (kwargs : kwargs) (w : World)
    : outcome value * World :=
  match try_block func extra_outputs_array args kwargs w with
  | (Ret res, w) => (Ret res, final_reset w)
  | (Raise e, w) => (Raise e, w)
  end.

(** [wrap_gpu_call(func, extra_outputs)] is [f]; calling it binds the
    keyword-only parameter [extra_outputs_array] (default: the template
    given when wrapping) and collects the other keywords in [kwargs]. *)
Definition wrap_gpu_call (func : job_fun) (extra_outputs : value)
    (args : list value) (kw : kwargs) (w : World)
    : outcome value * World :=
  let extra_outputs_array := bind_extra_outputs_array extra_outputs kw in
  f_body func extra_outputs_array args (kw_del extra_outputs_array_key kw) w.

End Wrapper.

(** ** Vocabulary of the statements *)




(** The idle values of the three fields reset on lines 212 to 214. *)
Definition idle_shape (s : Status) : Prop :=
  skipped s = false /\ interrupted s = false /\ job_count s = 0%Z.



(** ** Scenarios *)

Definition busy_status : Status :=
  mkStatus (py "Training step 3") (py "train") 5 7 true true.

Definition empty_world (s : Status) : World := mkWorld s ∅ [].

(** A job that raises [e] and one that returns [v], touching nothing. *)
Definition raise_exn (e : exn) : job_fun := fun _ _ w => (Raise e, w).
Definition return_value (v : value) : job_fun := fun _ _ w => (Ret v, w).

Definition value_error_bad_size : exn :=
  Exn (py "ValueError") (py "bad size") true.
Definition keyboard_interrupt : exn :=
  Exn (py "KeyboardInterrupt") [] false.

(** The wrapper in an environment where begin and end change nothing and
    the printed forms are fixed texts. *)
Definition demo_host : Host :=
  mkHost (fun s => s) (fun s => s)
    (fun _ _ => Ret (py "()")) (fun _ _ => Ret (py "{}"))
    (fun _ => py "Traceback (most recent call last):").

Definition demo_wrap : job_fun -> value -> job_fun := wrap_gpu_call demo_host.

(** [str(args)] of 131061 characters: with the 11 of ["Arguments: "] and
    the space, a dump of 131073. *)
Definition long_dump_host : Host :=
  mkHost (fun s => s) (fun s => s)
    (fun _ _ => Ret (repeat 120 (N.to_nat 131061))) (fun _ _ => Ret [])
    (fun _ => py "Traceback").

(** A job that returns [("ok", 42)] without arguments and raises
    [ValueError("bad size")] with any. *)
Definition picky_job : job_fun :=
  fun args _ w =>
    match args with
    | [] => (Ret (VTuple [VStr (py "ok"); VInt 42]), w)
    | _ => (Raise value_error_bad_size, w)
    end.


(** A job that returns [None] without arguments; with any, it sets the
    interrupted flag and raises [KeyboardInterrupt]. *)
Definition interrupted_job : job_fun :=
  fun args _ w =>
    match args with
    | [] => (Ret VNone, w)
    | _ => (Raise keyboard_interrupt, with_status (set_interrupted true) w)
    end.


(** A host whose [str(args)] raises, as for an integer of more than 4300
    digits. *)
Definition str_limit_error : exn :=
  Exn (py "ValueError")
    (py "Exceeds the limit (4300 digits) for integer string conversion")
    true.

Definition failing_str_host : Host :=
  mkHost (fun s => s) (fun s => s)
    (fun _ _ => Raise str_limit_error) (fun _ _ => Ret (py "{}"))
    (fun _ => py "Traceback (most recent call last):").

(** A world with one list, [[7, 'x']], at location 1. *)
Definition one_list_world : World :=
  mkWorld busy_status {[ 1%positive := [VInt 7; VStr (py "x")] ]} [].


(** ** The rest of the module: text tests, progress, listings *)

(** [s.startswith(p)] *)
Fixpoint is_prefix (p s : str) : bool :=
  match p, s with
  | [], _ => true
  | _ :: _, [] => false
  | a :: p', b :: s' => (a =? b) && is_prefix p' s'
  end.

(** [sub in s] for text. *)
Fixpoint is_substring (sub s : str) : bool :=
  match s with
  | [] => is_prefix sub []
  | _ :: s' => is_prefix sub s || is_substring sub s'
  end.

(** The truth value of an object in [if params:]. *)
Definition truthy (h : gmap loc (list value)) (v : value) : bool :=
  match v with
  | VNone => false
  | VBool b => b
  | VInt z => negb (z =? 0)%Z
  | VStr s => negb (bool_decide (s = []))
  | VTuple vs => negb (bool_decide (vs = []))
  | VRef l =>
      match h !! l with
      | Some xs => negb (bool_decide (xs = []))
      | None => true
      end
  end.

Definition set_textinfo (v : str) (s : Status) : Status :=
  mkStatus v (job s) (job_no s) (job_count s) (skipped s) (interrupted s).
Definition set_job_no (v : Z) (s : Status) : Status :=
  mkStatus (textinfo s) (job s) v (job_count s) (skipped s) (interrupted s).

(** [printi(msg, params, log)] on the shared status and the text written
    to [sys.stdout]; [str_value] is [str(params)] of the interpreter. *)
Definition printi (str_value : gmap loc (list value) -> value -> str)
    (h : gmap loc (list value)) (msg : str) (params : value) (log : bool)
    (st : Status * str) : Status * str :=
  if log then
    let '(s, out) := st in
    let s := set_textinfo msg s in
    let s :=
      if (job_no s <? job_count s)%Z
      then set_job_no (job_no s + 1)%Z s else s in
    let out :=
      if truthy h params
      then out ++ msg ++ py " " ++ str_value h params ++ [chr_newline]
      else out ++ msg ++ [chr_newline] in
    (s, out)
  else st.

(** [printi(msg)] for each message of a list, in order. *)
Definition printi_all (str_value : gmap loc (list value) -> value -> str)
    (h : gmap loc (list value)) (msgs : list str) (st : Status * str)
    : Status * str :=
  fold_left (fun st msg => printi str_value h msg VNone true st) msgs st.

(** [val != s] for a text [s]: objects of another type differ from it. *)
Definition ne_text (val : value) (s : str) : bool :=
  match val with
  | VStr s' => negb (bool_decide (s' = s))
  | _ => true
  end.

Definition is_not_None (val : value) : bool :=
  match val with
  | VNone => false
  | _ => true
  end.

Definition isset (val : value) : bool :=
  is_not_None val && ne_text val [] && ne_text val (py "*").

(** The attributes of a checkpoint that [get_checkpoint_match] reads. *)
Record CheckpointInfo : Type := mkCheckpointInfo {
  title : str;
  model_name : str;
  filename : str
}.

(** [get_checkpoint_match(search_string)] over the values of
    [sd_models.checkpoints_list], in the order of the dictionary. *)
Fixpoint get_checkpoint_match (checkpoints_list : list CheckpointInfo)
    (search_string : str) : option CheckpointInfo :=
  match checkpoints_list with
  | [] => None
  | info :: rest =>
      if is_substring search_string (title info)
         || is_substring search_string (model_name info)
         || is_substring search_string (filename info)
      then Some info
      else get_checkpoint_match rest search_string
  end.

(** The functions of [os] and [os.path] that the listings call. *)
Record FileSystem : Type := mkFileSystem {
  path_exists : str -> bool;
  listdir : str -> outcome (list str);
  path_isdir : str -> bool;
  path_isfile : str -> bool;
  path_join : str -> str -> str;
  path_dirname : str -> str
}.

(** [os.path.dirname(cmd_path) if cmd_path else paths.models_path]; the
    command line option is [None] when it is absent. *)
Definition model_dir_of (fs : FileSystem) (cmd_path : option str)
    (models_path : str) : str :=
  match cmd_path with
  | Some p =>
      if negb (bool_decide (p = [])) then path_dirname fs p else models_path
  | None => models_path
  end.

(** [os.listdir] raises when the path is no directory, which the test
    of [os.path.exists] does not rule out. *)
Definition get_db_models (fs : FileSystem)
    (cmd_dreambooth_models_path : option str) (models_path : str)
    : outcome (list str) :=
  let model_dir := model_dir_of fs cmd_dreambooth_models_path models_path in
  let out_dir := path_join fs model_dir (py "dreambooth") in
  let output := [] in
  if path_exists fs out_dir then
    match listdir fs out_dir with
    | Raise e => Raise e
    | Ret dirs =>
        Ret (fold_left
               (fun output found =>
                  if path_isdir fs (path_join fs out_dir found)
                  then output ++ [found] else output)
               dirs output)
    end
  else Ret output.

Definition get_lora_models (fs : FileSystem)
    (cmd_lora_models_path : option str) (models_path : str)
    : outcome (list str) :=
  let model_dir := model_dir_of fs cmd_lora_models_path models_path in
  let out_dir := path_join fs model_dir (py "lora") in
  let output := [[]] in
  if path_exists fs out_dir then
    match listdir fs out_dir with
    | Raise e => Raise e
    | Ret dirs =>
        Ret (fold_left
               (fun output found =>
                  if path_isfile fs (path_join fs out_dir found) then
                    if negb (is_substring (py "_txt.pt") found)
                       && is_substring (py ".pt") found
                    then output ++ [found] else output
                  else output)
               dirs output)
    end
  else Ret output.

(** [sub] occurs in [s]: what [sub in s] decides. *)
Definition occurs_in (sub s : str) : Prop :=
  exists pre post, s = pre ++ sub ++ post.

(** The test of [get_checkpoint_match] on one checkpoint. *)
Definition checkpoint_matches (search_string : str) (info : CheckpointInfo)
    : Prop :=
  occurs_in search_string (title info)
  \/ occurs_in search_string (model_name info)
  \/ occurs_in search_string (filename info).

(** ** The rest of the module: image formats and image files *)

(** The line boundaries of [str.splitlines()], but for the pair
    carriage return, line feed, which is one boundary. *)
Definition is_line_boundary (c : char) : bool :=
  ((10 <=? c) && (c <=? 13)) || ((28 <=? c) && (c <=? 30))
  || (c =? 133) || (c =? 8232) || (c =? 8233).

(** [s.splitlines()]: [cur] is the line being read. *)
Fixpoint splitlines_from (s : str) (cur : str) : list str :=
  match s with
  | [] => match cur with [] => [] | _ => [cur] end
  | c :: s' =>
      if c =? 13 then
        match s' with
        | 10 :: s'' => cur :: splitlines_from s'' []
        | _ => cur :: splitlines_from s' []
        end
      else if is_line_boundary c then cur :: splitlines_from s' []
      else splitlines_from s' (cur ++ [c])
  end.

Definition splitlines (s : str) : list str := splitlines_from s [].

(** [s.split(sep)] for a separator of one character or more: [skip]
    counts the characters of a separator still to pass, [cur] is the
    field being read. *)
Fixpoint split_str_from (sep : str) (s : str) (skip : nat) (cur : str)
    : list str :=
  match s with
  | [] => [cur]
  | c :: s' =>
      match skip with
      | S k => split_str_from sep s' k cur
      | O =>
          if is_prefix sep s
          then cur :: split_str_from sep s' (length sep - 1) []
          else split_str_from sep s' 0 (cur ++ [c])
      end
  end.

Definition split_str (sep : str) (s : str) : list str :=
  split_str_from sep s 0 [].

(** [x in l] for a list of texts. *)
Definition str_in (x : str) (l : list str) : bool :=
  existsb (fun y => bool_decide (x = y)) l.

Definition index_error : exn :=
  Exn (py "IndexError") (py "list index out of range") true.

(** Lines 235 to 237: the extensions not yet known are appended. *)
Definition add_extensions (pil_features : list str) (extensions : list str)
    : list str :=
  fold_left
    (fun pil_features extension =>
       if str_in extension pil_features then pil_features
       else pil_features ++ [extension])
    extensions pil_features.

(** Lines 231 to 237, the loop over the lines of the report. *)
Fixpoint list_features_lines (lines : list str) (pil_features : list str)
    : outcome (list str) :=
  match lines with
  | [] => Ret pil_features
  | line :: rest =>
      if is_substring (py "Extensions:") line then
        match split_str (py ": ") line !! 1%nat with
        | Some ext_list =>
            let extensions := split_str (py ", ") ext_list in
            list_features_lines rest (add_extensions pil_features extensions)
        | None => Raise index_error
        end
      else list_features_lines rest pil_features
  end.

(** [list_features()], given the text that [features.pilinfo] writes. *)
Definition list_features (pilinfo_text : str) : outcome (list str) :=
  list_features_lines (splitlines pilinfo_text) [].

(** A directory tree: regular files and directories, by name. *)
Inductive fs_node : Type :=
| FsFile (name : str)
| FsDir (name : str) (children : list fs_node).

Definition node_name (n : fs_node) : str :=
  match n with
  | FsFile name => name
  | FsDir name _ => name
  end.

Definition node_is_file (n : fs_node) : bool :=
  match n with
  | FsFile _ => true
  | FsDir _ _ => false
  end.

(** What the image functions take from [pathlib] and [PIL]:
    [path.suffix.lower()] of a file name, the text of the error of
    [iterdir()] on what is no directory, and the report of
    [features.pilinfo]. *)
Record ImageHost : Type := mkImageHost {
  suffix_lower : str -> str;
  iterdir_error_text : list str -> str;
  pilinfo_text : str
}.

Definition not_a_directory_error (ih : ImageHost) (path : list str) : exn :=
  Exn (py "NotADirectoryError") (iterdir_error_text ih path) true.

(** [is_image(path, feats)] for the file or directory [file]. *)
Definition is_image (ih : ImageHost) (file : fs_node)
    (feats : option (list str)) : outcome bool :=
  let feats := match feats with None => [] | Some feats => feats end in
  let feats :=
    if bool_decide (length feats = 0%nat)
    then list_features (pilinfo_text ih) else Ret feats in
  match feats with
  | Raise e => Raise e
  | Ret feats =>
      Ret (node_is_file file && str_in (suffix_lower ih (node_name file)) feats)
  end.

(** [get_images(image_path)] for a path that exists: [node] is what is
    there and [path] its components.  A found image is the path of its
    file. *)
Fixpoint get_images_at (ih : ImageHost) (node : fs_node) (path : list str)
    : outcome (list (list str)) :=
  match list_features (pilinfo_text ih) with
  | Raise e => Raise e
  | Ret pil_features =>
      match node with
      | FsFile _ => Raise (not_a_directory_error ih path)
      | FsDir _ children =>
          (fix iterdir (files : list fs_node) (output : list (list str))
             : outcome (list (list str)) :=
             match files with
             | [] => Ret output
             | file :: files' =>
                 let file_path := path ++ [node_name file] in
                 match is_image ih file (Some pil_features) with
                 | Raise e => Raise e
                 | Ret is_img =>
                     let output :=
                       if is_img then output ++ [file_path] else output in
                     match file with
                     | FsDir _ _ =>
                         match get_images_at ih file file_path with
                         | Raise e => Raise e
                         | Ret sub_images => iterdir files' (output ++ sub_images)
                         end
                     | FsFile _ => iterdir files' output
                     end
                 end
             end) children []
      end
  end.

(** [get_images(image_path)]: [root] is [None] when the path does not
    exist. *)
Definition get_images (ih : ImageHost) (root : option fs_node)
    (path : list str) : outcome (list (list str)) :=
  match root with
  | None =>
      match list_features (pilinfo_text ih) with
      | Raise e => Raise e
      | Ret pil_features => Ret []
      end
  | Some node => get_images_at ih node path
  end.



(** A report of two formats, and a tree of images. *)
Definition demo_pilinfo : str :=
  py "Pillow 9.4.0" ++ [chr_newline]
  ++ py "BMP image" ++ [chr_newline]
  ++ py "Extensions: .bmp" ++ [chr_newline]
  ++ py "JPEG (ISO 10918)" ++ [chr_newline]
  ++ py "Extensions: .jfif, .jpe, .jpeg, .jpg" ++ [chr_newline]
  ++ py "Features: open, save" ++ [chr_newline].

(** The suffix of names with one dot after the first character, as they
    are in the tree below. *)
Definition demo_suffix (name : str) : str :=
  match split_on 46 name with
  | [_; ext] => 46 :: ext
  | _ => []
  end.

Definition demo_image_host : ImageHost :=
  mkImageHost demo_suffix (fun _ => py "[Errno 20] Not a directory")
    demo_pilinfo.


(** The extensions of [demo_pilinfo]. *)
Definition demo_features : list str :=
  [py ".bmp"; py ".jfif"; py ".jpe"; py ".jpeg"; py ".jpg"].


(** A file system in which [models/lora] is a directory of four files
    and every other path, [models/dreambooth] too, a regular file, on
    which [os.listdir] raises. *)
Definition listdir_error : exn :=
  Exn (py "NotADirectoryError") (py "[Errno 20] Not a directory") true.

Definition demo_fs : FileSystem :=
  mkFileSystem
    (fun _ => true)
    (fun p =>
       if bool_decide (p = py "models/lora")
       then Ret [py "a.pt"; py "a_txt.pt"; py "notes.md"; py "b.pt"]
       else Raise listdir_error)
    (fun _ => false)
    (fun _ => true)
    (fun a b => a ++ py "/" ++ b)
    (fun p => p).

(** ** Examples *)

Example sanitize_tags_ex1 :
  sanitize_tags (fun _ => false) (py "a b, c d!") = py "_c_d".
Proof. vm_compute. reflexivity. Qed.

Example html_escape_ex1 :
  html_escape (py "<a href='x'>&</a>") = py "&lt;a href=&#x27;x&#x27;&gt;&amp;&lt;/a&gt;".
Proof. vm_compute. reflexivity. Qed.

Example str_of_len_ex1 : str_of_len 131073 = py "131073".
Proof. vm_compute. reflexivity. Qed.

(** ** The store *)

Lemma alloc_fresh xs w : heap w !! (alloc xs w).1 = None.
Proof.
  unfold alloc; simpl. apply not_elem_of_dom. apply is_fresh.
Qed.

Lemma alloc_lookup xs w : heap (alloc xs w).2 !! (alloc xs w).1 = Some xs.
Proof. unfold alloc; simpl. apply lookup_insert_eq. Qed.

Lemma alloc_frame xs w l :
  is_Some (heap w !! l) -> heap (alloc xs w).2 !! l = heap w !! l.
Proof.
  intros Hl. unfold alloc; simpl. apply lookup_insert_ne.
  intros Heq. rewrite <- Heq in Hl.
  pose proof (alloc_fresh xs w) as Hf. unfold alloc in Hf; simpl in Hf.
  rewrite Hf in Hl. by destruct Hl.
Qed.

Lemma alloc_status xs w : status (alloc xs w).2 = status w.
Proof. reflexivity. Qed.

Lemma alloc_stderr xs w : stderr (alloc xs w).2 = stderr w.
Proof. reflexivity. Qed.

Lemma alloc_inv xs w l w' :
  alloc xs w = (l, w') ->
  heap w !! l = None
  /\ heap w' !! l = Some xs
  /\ (forall l', is_Some (heap w !! l') -> heap w' !! l' = heap w !! l')
  /\ status w' = status w
  /\ stderr w' = stderr w.
Proof.
  intros E.
  pose proof (alloc_fresh xs w) as H1. pose proof (alloc_lookup xs w) as H2.
  pose proof (alloc_frame xs w) as H3. rewrite E in H1, H2, H3.
  simpl in H1, H2, H3. repeat split; try done.
  - by inversion E.
  - by inversion E.
Qed.



Lemma add_list_display_stderr a ys w :
  stderr (add_list_display a ys w).2 = stderr w.
Proof.
  unfold add_list_display. destruct (alloc ys w) as [l1 w1] eqn:E1.
  destruct (alloc_inv _ _ _ _ E1) as (_ & _ & _ & _ & S1).
  destruct a; try exact S1.
  destruct (heap w1 !! l); [|exact S1].
  destruct (alloc (l0 ++ ys) w1) as [r w2] eqn:E2.
  destruct (alloc_inv _ _ _ _ E2) as (_ & _ & _ & _ & S2).
  change (stderr w2 = stderr w). congruence.
Qed.


(** ** The wrapper, path by path *)

Lemma print_arg_str_stderr s w :
  stderr (print_arg_str s w) =
  stderr w ++ take (N.to_nat max_debug_str_len) s ++ [chr_newline]
  ++ (if max_debug_str_len <? len s
      then truncation_note (len s) ++ [chr_newline] else []).
Proof.
  unfold print_arg_str. destruct (max_debug_str_len <? len s);
    cbn [stderr print_err]; rewrite <- ?app_assoc; reflexivity.
Qed.



Section WrapperFacts.

Variable host : Host.

Local Abbreviation handler := (except_block host).

(** The world of the handler just before line 207, for the dump
    [arg_str]. *)
Local Abbreviation before_template e arg_str w :=
  (with_status (set_job_count 0%Z)
     (with_status (set_job [])
        (print_err (format_exc host e)
           (print_arg_str arg_str
              (print_err (py "Error completing request") w))))).

(** When line 197 raises, the handler has written its first line and
    nothing else has happened. *)
Lemma except_block_dump_raises e t args kwargs w e' :
  arg_str_of host args kwargs w = Raise e' ->
  handler e t args kwargs w =
  (Raise e', print_err (py "Error completing request") w).
Proof.
  intros Hd. unfold except_block. cbv zeta.
  change (arg_str_of host args kwargs
            (print_err (py "Error completing request") w))
    with (arg_str_of host args kwargs w).
  by rewrite Hd.
Qed.

Lemma except_block_unfold e t args kwargs w arg_str :
  arg_str_of host args kwargs w = Ret arg_str ->
  handler e t args kwargs w =
  let w0 := before_template e arg_str w in
  let '(t', w1) :=
    match t with
    | VNone => let (l, w1) := alloc [VNone; VStr []] w0 in (VRef l, w1)
    | v => (v, w0)
    end in
  add_list_display t' [VStr (error_html e)] w1.
Proof.
  intros Hd. unfold except_block. cbv zeta.
  change (arg_str_of host args kwargs
            (print_err (py "Error completing request") w))
    with (arg_str_of host args kwargs w).
  by rewrite Hd.
Qed.



Lemma before_template_stderr e arg_str w :
  stderr (before_template e arg_str w) =
  stderr w ++ py "Error completing request" ++ [chr_newline]
  ++ take (N.to_nat max_debug_str_len) arg_str
  ++ [chr_newline]
  ++ (if max_debug_str_len <? len arg_str
      then truncation_note (len arg_str) ++ [chr_newline]
      else [])
  ++ format_exc host e ++ [chr_newline].
Proof.
  cbn [stderr with_status print_err].
  rewrite print_arg_str_stderr. cbn [stderr print_err].
  rewrite <- !app_assoc. reflexivity.
Qed.


(** What the handler writes to the error stream when it has a dump,
    whether the concatenation on line 210 raises or not. *)
Lemma except_block_stderr e t args kwargs w arg_str :
  arg_str_of host args kwargs w = Ret arg_str ->
  stderr (handler e t args kwargs w).2 =
  stderr w ++ py "Error completing request" ++ [chr_newline]
  ++ take (N.to_nat max_debug_str_len) arg_str
  ++ [chr_newline]
  ++ (if max_debug_str_len <? len arg_str
      then truncation_note (len arg_str) ++ [chr_newline]
      else [])
  ++ format_exc host e ++ [chr_newline].
Proof.
  intros Hd. rewrite (except_block_unfold e t args kwargs w arg_str Hd).
  cbv zeta. rewrite <- (before_template_stderr e arg_str w).
  destruct t; try apply add_list_display_stderr.
  destruct (alloc _ _) as [l w1] eqn:E.
  rewrite add_list_display_stderr.
  by destruct (alloc_inv _ _ _ _ E) as (_ & _ & _ & _ & S1).
Qed.



End WrapperFacts.

(** ** Escaping *)





Example html_escape_script :
  html_escape (py "<script>") = py "&lt;script&gt;".
Proof. vm_compute. reflexivity. Qed.

Section Paths.

Variable host : Host.

Local Abbreviation handler := (except_block host).
Local Abbreviation body :=
  (f_body host).

Lemma f_body_success func t args kwargs w res w1 :
  call_job host func args kwargs w = (Ret res, w1) ->
  body func t args kwargs w =
  (Ret res, final_reset (with_status (status_end host) w1)).
Proof.
  intros Hjob. unfold f_body, try_block. by rewrite Hjob.
Qed.

Lemma f_body_handled func t args kwargs w e w1 :
  call_job host func args kwargs w = (Raise e, w1) ->
  exn_is_Exception e = true ->
  body func t args kwargs w =
  match handler e t args kwargs w1 with
  | (Ret res, w') => (Ret res, final_reset w')
  | (Raise e', w') => (Raise e', w')
  end.
Proof.
  intros Hjob He. unfold f_body, try_block. by rewrite Hjob, He.
Qed.

Lemma f_body_propagates func t args kwargs w e w1 :
  call_job host func args kwargs w = (Raise e, w1) ->
  exn_is_Exception e = false ->
  body func t args kwargs w = (Raise e, w1).
Proof.
  intros Hjob He. unfold f_body, try_block. by rewrite Hjob, He.
Qed.


(** When line 197 raises in the handler, that exception leaves the
    wrapped call: one line was written, nothing was assigned. *)
Lemma f_body_dump_raises func t args kwargs w e w1 e' :
  call_job host func args kwargs w = (Raise e, w1) ->
  exn_is_Exception e = true ->
  arg_str_of host args kwargs w1 = Raise e' ->
  body func t args kwargs w =
  (Raise e', print_err (py "Error completing request") w1).
Proof.
  intros Hjob He Hd. rewrite (f_body_handled _ _ _ _ _ _ _ Hjob He).
  by rewrite (except_block_dump_raises host e t args kwargs w1 e' Hd).
Qed.

(** A call that returns a value has passed lines 212 to 214. *)
Lemma f_body_returns_idle func t args kwargs w v w' :
  body func t args kwargs w = (Ret v, w') -> idle_shape (status w').
Proof.
  unfold f_body.
  destruct (try_block host func t args kwargs w) as [[res|e] w0];
    [|discriminate].
  intros [= _ <-]. by repeat split.
Qed.


End Paths.

(** ** The wrapper: results *)

Section Results.

Variable host : Host.

Local Abbreviation job_of func args kw w :=
  (call_job host func args (kw_del extra_outputs_array_key kw) w).





End Results.








(** ** The wrapper: diagnostics, status, store and keywords *)

Lemma truncation_note_text n :
  truncation_note n =
  py "(Argument list truncated at 131072/" ++ str_of_len n
  ++ py " characters)".
Proof. reflexivity. Qed.

Lemma kw_get_del k kw : kw_get k (kw_del k kw) = None.
Proof.
  induction kw as [|[k' v] kw IH]; [done|].
  unfold kw_del in *. cbn [List.filter fst].
  destruct (bool_decide_reflect (k' = k)) as [Heq|Hne]; cbn [negb]; [done|].
  cbn [kw_get]. by destruct (decide (k' = k)).
Qed.




Section Effects.

Variable host : Host.

Local Abbreviation job_of func args kw w :=
  (call_job host func args (kw_del extra_outputs_array_key kw) w).

(** C5. On the exception path the dump of line 197, written to the
    error stream, is capped at 131072 characters: a dump of at most
    131072 characters (so one of exactly 131072) is written whole and no
    note follows; a longer one is cut to its first 131072 characters and
    followed by a note with the cap and the full length, which for 131073
    characters reads
    [(Argument list truncated at 131072/131073 characters)]. *)
Theorem argument_dump_is_capped func extra_outputs args kw w e w1 dump :
  job_of func args kw w = (Raise e, w1) ->
  exn_is_Exception e = true ->
  arg_str_of host args (kw_del extra_outputs_array_key kw) w1 = Ret dump ->
  let out := stderr (wrap_gpu_call host func extra_outputs args kw w).2 in
  let cut := take (N.to_nat max_debug_str_len) dump in
  max_debug_str_len = 131072
  /\ (len dump <= 131072 ->
      out = stderr w1 ++ py "Error completing request" ++ [chr_newline]
            ++ dump ++ [chr_newline]
            ++ format_exc host e ++ [chr_newline])
  /\ (131072 < len dump ->
      len cut = 131072
      /\ out = stderr w1 ++ py "Error completing request" ++ [chr_newline]
               ++ cut ++ [chr_newline]
               ++ py "(Argument list truncated at 131072/"
               ++ str_of_len (len dump) ++ py " characters)"
               ++ [chr_newline]
               ++ format_exc host e ++ [chr_newline])
  /\ (len dump = 131073 ->
      out = stderr w1 ++ py "Error completing request" ++ [chr_newline]
            ++ cut ++ [chr_newline]
            ++ py "(Argument list truncated at 131072/131073 characters)"
            ++ [chr_newline]
            ++ format_exc host e ++ [chr_newline]).
Proof.
  intros Hjob He Hd out cut.
  assert (Hout : out =
    stderr w1 ++ py "Error completing request" ++ [chr_newline]
    ++ cut ++ [chr_newline]
    ++ (if max_debug_str_len <? len dump
        then truncation_note (len dump) ++ [chr_newline] else [])
    ++ format_exc host e ++ [chr_newline]).
  { unfold out, cut, wrap_gpu_call.
    rewrite (f_body_handled _ _ _ _ _ _ _ _ Hjob He).
    rewrite <- (except_block_stderr host e
                  (bind_extra_outputs_array extra_outputs kw)
                  args (kw_del extra_outputs_array_key kw) w1 dump Hd).
    by destruct (except_block _ _ _ _ _ _) as [[res|e'] w']. }
  assert (Hlong : 131072 < len dump ->
    len cut = 131072
    /\ out = stderr w1 ++ py "Error completing request" ++ [chr_newline]
             ++ cut ++ [chr_newline]
             ++ py "(Argument list truncated at 131072/"
             ++ str_of_len (len dump) ++ py " characters)"
             ++ [chr_newline]
             ++ format_exc host e ++ [chr_newline]).
  { intros Hlen. split.
    - unfold cut, len in *. rewrite length_take.
      change max_debug_str_len with 131072. lia.
    - rewrite Hout.
      replace (max_debug_str_len <? len dump) with true
        by (symmetry; apply N.ltb_lt; exact Hlen).
      rewrite truncation_note_text.
      by rewrite <- !app_assoc. }
  split; [reflexivity|]. split; [|split; [exact Hlong|]].
  - intros Hlen. rewrite Hout.
    replace (max_debug_str_len <? len dump) with false
      by (symmetry; apply N.ltb_ge; exact Hlen).
    unfold cut. rewrite take_ge; [reflexivity|].
    unfold len in Hlen. change max_debug_str_len with 131072. lia.
  - intros Hlen. destruct Hlong as [_ ->]; [lia|].
    rewrite Hlen. reflexivity.
Qed.


(** Any call that returns a value leaves the three fields idle. *)
Lemma returned_call_is_idle func extra_outputs args kw w v :
  (wrap_gpu_call host func extra_outputs args kw w).1 = Ret v ->
  idle_shape (status (wrap_gpu_call host func extra_outputs args kw w).2).
Proof.
  unfold wrap_gpu_call. intros Hv.
  destruct (f_body host func (bind_extra_outputs_array extra_outputs kw)
              args (kw_del extra_outputs_array_key kw) w) as [o w'] eqn:E.
  simpl in Hv. subst o. exact (f_body_returns_idle host _ _ _ _ _ _ _ E).
Qed.

(** C7, as amended.  Two calls in sequence, one whose job returns and
    one whose job raises while the wrapped call returns its failure
    result, in either order, leave skipped, interrupted and job_count at
    false, false and 0, after the first call and after the second. *)
Theorem two_calls_leave_idle_shape func extra_outputs a1 k1 a2 k2 w :
  let r1 := wrap_gpu_call host func extra_outputs a1 k1 w in
  let r2 := wrap_gpu_call host func extra_outputs a2 k2 r1.2 in
  ((exists res w1, job_of func a1 k1 w = (Ret res, w1))
   /\ (exists e w2 v,
         job_of func a2 k2 r1.2 = (Raise e, w2) /\ r2.1 = Ret v))
  \/ ((exists e w1 v,
         job_of func a1 k1 w = (Raise e, w1) /\ r1.1 = Ret v)
      /\ (exists res w2, job_of func a2 k2 r1.2 = (Ret res, w2))) ->
  idle_shape (status r1.2) /\ idle_shape (status r2.2).
Proof.
  intros r1 r2.
  assert (Hok : forall args kw w0 res w1,
    job_of func args kw w0 = (Ret res, w1) ->
    (wrap_gpu_call host func extra_outputs args kw w0).1 = Ret res).
  { intros args kw w0 res w1 Hjob. unfold wrap_gpu_call.
    by rewrite (f_body_success _ _ _ _ _ _ _ _ Hjob). }
  intros [[(res & w1 & H1) (e & w2 & v & _ & H2)]
         |[(e & w1 & v & _ & H1) (res & w2 & H2)]]; split.
  - exact (returned_call_is_idle _ _ _ _ _ _ (Hok _ _ _ _ _ H1)).
  - exact (returned_call_is_idle _ _ _ _ _ _ H2).
  - exact (returned_call_is_idle _ _ _ _ _ _ H1).
  - exact (returned_call_is_idle _ _ _ _ _ _ (Hok _ _ _ _ _ H2)).
Qed.

End Effects.

Section Store.

Variable host : Host.

Local Abbreviation job_of func args kw w :=
  (call_job host func args (kw_del extra_outputs_array_key kw) w).





End Store.

Lemma argument_dump_witness :
  stderr (wrap_gpu_call long_dump_host
            (raise_exn value_error_bad_size) VNone [] []
            (empty_world busy_status)).2 =
  stderr (empty_world busy_status)
  ++ py "Error completing request" ++ [chr_newline]
  ++ take (N.to_nat max_debug_str_len)
       (py "Arguments: " ++ repeat 120 (N.to_nat 131061) ++ py " " ++ [])
  ++ [chr_newline]
  ++ py "(Argument list truncated at 131072/131073 characters)"
  ++ [chr_newline]
  ++ py "Traceback" ++ [chr_newline].
Proof.
  apply (proj2 (proj2 (proj2 (argument_dump_is_capped
           long_dump_host
           (raise_exn value_error_bad_size) VNone [] []
           (empty_world busy_status) value_error_bad_size
           (empty_world busy_status)
           (py "Arguments: " ++ repeat 120 (N.to_nat 131061) ++ py " " ++ [])
           eq_refl eq_refl eq_refl)))).
  vm_compute. reflexivity.
Defined.



(** C7 as stated fails: after a call that succeeds and then a call whose
    job sets the interrupted flag and raises [KeyboardInterrupt], the
    flag is still set; in the other order the status ends idle. *)
Lemma interrupted_call_order_matters :
  ~ idle_shape
      (status (demo_wrap interrupted_job VNone [VInt 1] []
                 (demo_wrap interrupted_job VNone [] []
                    (empty_world busy_status)).2).2)
  /\ idle_shape
       (status (demo_wrap interrupted_job VNone [] []
                  (demo_wrap interrupted_job VNone [VInt 1] []
                     (empty_world busy_status)).2).2).
Proof.
  split.
  - intros (_ & H & _). vm_compute in H. discriminate H.
  - vm_compute. by repeat split.
Qed.

(** Both orders: the job succeeds then fails, and fails then succeeds. *)
Lemma two_calls_witness :
  (idle_shape (status (demo_wrap picky_job VNone [] []
                         (empty_world busy_status)).2)
   /\ idle_shape
        (status (demo_wrap picky_job VNone [VInt 1] []
                   (demo_wrap picky_job VNone [] []
                      (empty_world busy_status)).2).2))
  /\ (idle_shape (status (demo_wrap picky_job VNone [VInt 1] []
                            (empty_world busy_status)).2)
      /\ idle_shape
           (status (demo_wrap picky_job VNone [] []
                      (demo_wrap picky_job VNone [VInt 1] []
                         (empty_world busy_status)).2).2)).
Proof.
  split.
  - apply (two_calls_leave_idle_shape
             demo_host
             picky_job VNone [] [] [VInt 1] [] (empty_world busy_status)).
    left. split.
    + eexists. eexists. reflexivity.
    + eexists. eexists. eexists. split; reflexivity.
  - apply (two_calls_leave_idle_shape
             demo_host
             picky_job VNone [VInt 1] [] [] [] (empty_world busy_status)).
    right. split.
    + eexists. eexists. eexists. split; reflexivity.
    + eexists. eexists. reflexivity.
Defined.



(** ** Tag sanitizing *)

Lemma split_on_nonempty sep s : split_on sep s <> [].
Proof.
  destruct s as [|c s]; cbn [split_on]; [done|].
  destruct (c =? sep); [done|]. by destruct (split_on sep s).
Qed.

Lemma split_on_app sep before tag :
  split_on sep (before ++ sep :: tag) = split_on sep before ++ split_on sep tag.
Proof.
  induction before as [|c before IH]; cbn [split_on app].
  - by rewrite N.eqb_refl.
  - destruct (c =? sep); [by rewrite IH|]. rewrite IH.
    pose proof (split_on_nonempty sep before) as Hne.
    by destruct (split_on sep before).
Qed.

Lemma last_app_nonempty {A} (l1 l2 : list A) d :
  l2 <> [] -> List.last (l1 ++ l2) d = List.last l2 d.
Proof.
  intros Hne. induction l1 as [|x l1 IH]; [done|].
  cbn [app]. rewrite <- IH. cbn [List.last].
  destruct (l1 ++ l2) eqn:E; [|done].
  apply app_eq_nil in E as [_ ->]. done.
Qed.

(** A loop that assigns its accumulator without reading it leaves the
    value computed from the last element. *)
Lemma fold_left_overwrite {A B} (g : B -> A) (l : list B) (acc : A) (d : B) :
  l <> [] -> fold_left (fun _ x => g x) l acc = g (List.last l d).
Proof.
  revert acc. induction l as [|x l IH]; intros acc Hne; [done|].
  cbn [fold_left]. destruct l as [|y l]; [done|].
  rewrite IH by done. reflexivity.
Qed.

Lemma filter_lstrip (p : char -> bool) s :
  (forall c, isspace c = true -> p c = false) ->
  List.filter p (lstrip s) = List.filter p s.
Proof.
  intros Hp. induction s as [|c s IH]; [done|].
  cbn [lstrip]. destruct (isspace c) eqn:E; [|done].
  cbn [List.filter]. by rewrite (Hp c E).
Qed.

Lemma filter_rev_commute {A} (p : A -> bool) (l : list A) :
  List.filter p (rev l) = rev (List.filter p l).
Proof.
  induction l as [|x l IH]; [done|].
  cbn [rev List.filter]. rewrite List.filter_app, IH. cbn [List.filter].
  destruct (p x); cbn [rev]; [done|]. by rewrite app_nil_r.
Qed.

Lemma filter_strip (p : char -> bool) s :
  (forall c, isspace c = true -> p c = false) ->
  List.filter p (strip s) = List.filter p s.
Proof.
  intros Hp. unfold strip, rstrip.
  rewrite filter_rev_commute, filter_lstrip, filter_rev_commute by done.
  rewrite rev_involutive. by apply filter_lstrip.
Qed.

Lemma replace_char_absent old new s :
  ~ In old s -> replace_char old new s = s.
Proof.
  unfold replace_char. induction s as [|c s IH]; [done|].
  intros Hn. cbn [flat_map].
  destruct (N.eqb_spec c old) as [->|Hne]; [destruct Hn; by left|].
  cbn [app]. f_equal. apply IH. intros Hin. apply Hn. by right.
Qed.

Section SanitizeFacts.

Variable unicode_isalnum : char -> bool.

Local Abbreviation keep := (name_char unicode_isalnum).

Lemma name_char_not_space : keep chr_space = false.
Proof. reflexivity. Qed.

Lemma name_char_tags_char c : keep c = true -> tags_char unicode_isalnum c = true.
Proof.
  unfold name_char, tags_char, char_in. cbn [py existsb N_of_ascii].
  destruct (isalnum unicode_isalnum c); [done|]. cbn [orb].
  intros H. repeat (apply orb_prop in H as [H|H]; [by rewrite H, ?orb_true_r|]).
  done.
Qed.

Lemma filter_tags_char_name_char s :
  List.filter (tags_char unicode_isalnum) (List.filter keep s) = List.filter keep s.
Proof.
  induction s as [|c s IH]; [done|]. cbn [List.filter].
  destruct (keep c) eqn:E; [|exact IH].
  cbn [List.filter]. by rewrite (name_char_tags_char c E), IH.
Qed.

(** ASCII white space is never kept; outside ASCII that is a fact of the
    Unicode tables. *)
Lemma isspace_not_kept :
  (forall c, 128 <= c -> isspace c = true -> unicode_isalnum c = false) ->
  forall c, isspace c = true -> keep c = false.
Proof.
  intros Huni c Hsp. unfold name_char, isalnum, char_in.
  change (py "._-") with [46; 95; 45]. cbn [existsb].
  pose proof (Huni c) as Hc.
  destruct (unicode_isalnum c);
    unfold isspace in Hsp, Hc; unfold ascii_isalnum; unfold char in *;
    destruct (N.ltb_spec c 128) as [Hlt|Hge];
    rewrite !orb_true_iff, !andb_true_iff, !N.leb_le, !N.eqb_eq in Hsp, Hc;
    rewrite !orb_false_iff, ?andb_false_iff, ?N.leb_gt, !N.eqb_neq;
    lia.
Qed.

(** The loop and the two lines after it: the loop body on the last tag. *)
Lemma sanitize_tags_last_step name :
  sanitize_tags unicode_isalnum name =
  sanitize_tags_step unicode_isalnum []
    (List.last (split_on chr_comma name) []).
Proof.
  unfold sanitize_tags. cbv zeta.
  pose proof (fold_left_overwrite (sanitize_tags_step unicode_isalnum [])
                (split_on chr_comma name) [] []
                (split_on_nonempty chr_comma name)) as Hloop.
  change (fold_left (sanitize_tags_step unicode_isalnum)
            (split_on chr_comma name) [] =
          sanitize_tags_step unicode_isalnum []
            (List.last (split_on chr_comma name) [])) in Hloop.
  rewrite Hloop.
  unfold sanitize_tags_step. cbv zeta.
  rewrite replace_char_absent.
  - apply filter_tags_char_name_char.
  - intros Hin. apply filter_In in Hin as [_ Hk].
    rewrite name_char_not_space in Hk. discriminate.
Qed.

End SanitizeFacts.

Lemma split_on_no_sep sep s : ~ In sep s -> split_on sep s = [s].
Proof.
  induction s as [|c s IH]; [done|]. intros Hn. cbn [split_on].
  destruct (N.eqb_spec c sep) as [->|Hne]; [destruct Hn; by left|].
  rewrite IH; [done|]. intros Hin. apply Hn. by right.
Qed.

Lemma replace_char_one_for_one old new s :
  replace_char old [new] s = map (fun c => if c =? old then new else c) s.
Proof.
  unfold replace_char. induction s as [|c s IH]; [done|].
  cbn [flat_map map]. rewrite IH. by destruct (c =? old).
Qed.

(** C10. [sanitize_tags] returns the sanitized form of the last
    comma-separated tag alone: what the loop body makes of it, which is
    the tag with each space (32) replaced by an underscore (95) and then
    only alphanumerics, '.' (46), '_' (95) and '-' (45) kept.  Whatever
    stands before the final comma has no effect on the result. *)
Theorem sanitize_tags_keeps_only_last_tag (unicode_isalnum : char -> bool) :
  (forall name,
     sanitize_tags unicode_isalnum name =
     sanitize_tags_step unicode_isalnum []
       (List.last (split_on chr_comma name) []))
  /\ (forall before tag, ~ In chr_comma tag ->
        List.last (split_on chr_comma (before ++ chr_comma :: tag)) [] = tag
        /\ sanitize_tags unicode_isalnum (before ++ chr_comma :: tag) =
           sanitize_tags unicode_isalnum tag)
  /\ ((forall c, 128 <= c -> isspace c = true -> unicode_isalnum c = false) ->
      forall name,
        sanitize_tags unicode_isalnum name =
        List.filter
          (fun c => isalnum unicode_isalnum c
                    || ((c =? 46) || (c =? 95) || (c =? 45)))
          (map (fun c => if c =? 32 then 95 else c)
             (List.last (split_on chr_comma name) []))).
Proof.
  split; [apply sanitize_tags_last_step|]. split.
  - intros before tag Hn.
    assert (Hlast :
      List.last (split_on chr_comma (before ++ chr_comma :: tag)) [] = tag).
    { rewrite split_on_app, last_app_nonempty by apply split_on_nonempty.
      by rewrite split_on_no_sep. }
    split; [exact Hlast|].
    rewrite !sanitize_tags_last_step, Hlast. by rewrite split_on_no_sep.
  - intros Huni name. rewrite sanitize_tags_last_step.
    unfold sanitize_tags_step. cbv zeta.
    rewrite filter_strip by (by apply isspace_not_kept).
    rewrite replace_char_one_for_one.
    apply filter_ext. intros c. unfold name_char, char_in.
    change (py "._-") with [46; 95; 45]. cbn [existsb].
    by destruct (isalnum unicode_isalnum c), (c =? 46), (c =? 95), (c =? 45).
Qed.

Lemma sanitize_tags_witness :
  sanitize_tags (fun c => c =? 233) (py "a b, c d!") = py "_c_d".
Proof.
  rewrite (proj2 (proj2 (sanitize_tags_keeps_only_last_tag
                           (fun c => c =? 233)))).
  - vm_compute. reflexivity.
  - intros c Hc Hsp. unfold isspace in Hsp.
    rewrite !orb_true_iff, !andb_true_iff, !N.leb_le, !N.eqb_eq in Hsp.
    apply N.eqb_neq. lia.
Defined.

Example sanitize_tags_last_only :
  sanitize_tags (fun c => c =? 233) (py "first tag,second,  my tag!") =
  py "__my_tag".
Proof. vm_compute. reflexivity. Qed.

(** ** The wrapper: edges *)


Section Edges.

Variable host : Host.

Local Abbreviation job_of func args kw w :=
  (call_job host func args (kw_del extra_outputs_array_key kw) w).



(** X3. The wrapper writes to the error stream on the handler's path
    only: when the job returns, and when it raises what is not an
    instance of [Exception], the stream and the store are as the job
    left them. *)
Theorem no_diagnostics_without_handler func extra_outputs args kw w o w1 :
  job_of func args kw w = (o, w1) ->
  (forall e, o = Raise e -> exn_is_Exception e = false) ->
  stderr (wrap_gpu_call host func extra_outputs args kw w).2 = stderr w1
  /\ heap (wrap_gpu_call host func extra_outputs args kw w).2 = heap w1.
Proof.
  intros Hjob Ho. unfold wrap_gpu_call. destruct o as [res|e].
  - by rewrite (f_body_success _ _ _ _ _ _ _ _ Hjob).
  - by rewrite (f_body_propagates _ _ _ _ _ _ _ _ Hjob (Ho e eq_refl)).
Qed.


(** X24. When [str(args)] or [str(kwargs)] raises on line 197, that
    exception leaves the wrapped call in place of the job's.  The handler
    has written its first line and nothing more; job, job_count, skipped
    and interrupted are as the job left them. *)
Theorem dump_error_leaves_wrapper func extra_outputs args kw w e w1 e' :
  job_of func args kw w = (Raise e, w1) ->
  exn_is_Exception e = true ->
  arg_str_of host args (kw_del extra_outputs_array_key kw) w1 = Raise e' ->
  exists w',
    wrap_gpu_call host func extra_outputs args kw w = (Raise e', w')
    /\ stderr w' =
       stderr w1 ++ py "Error completing request" ++ [chr_newline]
    /\ status w' = status w1
    /\ heap w' = heap w1.
Proof.
  intros Hjob He Hd. unfold wrap_gpu_call.
  rewrite (f_body_dump_raises host _ _ _ _ _ _ _ _ Hjob He Hd).
  eexists. split; [reflexivity|]. by repeat split.
Qed.

End Edges.

(** ** Progress messages *)

Lemma printi_logged_status str_value h msg params s out :
  (printi str_value h msg params true (s, out)).1 =
  mkStatus msg (job s)
    (if (job_no s <? job_count s)%Z then (job_no s + 1)%Z else job_no s)
    (job_count s) (skipped s) (interrupted s).
Proof.
  unfold printi. cbn [set_textinfo job_no job_count].
  by destruct (job_no s <? job_count s)%Z.
Qed.

Lemma last_nonempty_default {A} (x : A) (l : list A) (d d' : A) :
  List.last (x :: l) d = List.last (x :: l) d'.
Proof.
  revert x. induction l as [|y l IH]; intros x; [done|].
  change (List.last (y :: l) d = List.last (y :: l) d'). apply IH.
Qed.

(** The counter after a run of logged calls. *)
Lemma printi_all_job_no str_value h msgs s out :
  job_no (printi_all str_value h msgs (s, out)).1 =
    Z.max (job_no s)
      (Z.min (job_count s) (job_no s + Z.of_nat (length msgs)))
  /\ job_count (printi_all str_value h msgs (s, out)).1 = job_count s.
Proof.
  unfold printi_all. revert s out.
  induction msgs as [|msg msgs IH]; intros s out.
  - cbn [fold_left length fst]. split; lia.
  - cbn [fold_left].
    destruct (printi str_value h msg VNone true (s, out)) as [s1 out1] eqn:E.
    pose proof (printi_logged_status str_value h msg VNone s out) as Hs.
    rewrite E in Hs. cbn [fst] in Hs.
    destruct (IH s1 out1) as (Hno & Hcount). rewrite Hno, Hcount.
    subst s1. cbn [job_no job_count length].
    destruct (Z.ltb_spec (job_no s) (job_count s)); lia.
Qed.

(** X5. A run of logged [printi] calls moves job_no towards job_count by
    one per call and stops there: it ends at
    [max job_no (min job_count (job_no + n))], so a job_no at or above
    job_count never moves.  The calls leave job, job_count, skipped and
    interrupted alone and write each message on a line of its own. *)
Theorem printi_progress_saturates str_value h msgs s out :
  let s' := (printi_all str_value h msgs (s, out)).1 in
  job_no s' =
    Z.max (job_no s)
      (Z.min (job_count s) (job_no s + Z.of_nat (length msgs)))
  /\ job_count s' = job_count s
  /\ job s' = job s
  /\ skipped s' = skipped s
  /\ interrupted s' = interrupted s
  /\ textinfo s' = List.last msgs (textinfo s)
  /\ (printi_all str_value h msgs (s, out)).2 =
     out ++ flat_map (fun msg => msg ++ [chr_newline]) msgs.
Proof.
  unfold printi_all. revert s out.
  induction msgs as [|msg msgs IH]; intros s out.
  - cbn [fold_left length flat_map List.last fst snd].
    rewrite app_nil_r. repeat split; lia.
  - cbn [fold_left].
    destruct (printi str_value h msg VNone true (s, out)) as [s1 out1] eqn:E.
    pose proof (printi_logged_status str_value h msg VNone s out) as Hs.
    rewrite E in Hs. cbn [fst] in Hs.
    assert (Hout : out1 = out ++ msg ++ [chr_newline]).
    { unfold printi in E. cbn [truthy] in E. by inversion E. }
    destruct (IH s1 out1) as (Hno & Hcount & Hjob & Hsk & Hint & Htxt & Hprint).
    cbv zeta. rewrite Hno, Hcount, Hjob, Hsk, Hint, Htxt, Hprint.
    subst s1 out1. cbn [job_no job_count job skipped interrupted textinfo].
    repeat split.
    + cbn [length]. destruct (Z.ltb_spec (job_no s) (job_count s)); lia.
    + destruct msgs as [|m msgs]; [done|].
      change (List.last (m :: msgs) msg = List.last (m :: msgs) (textinfo s)).
      apply last_nonempty_default.
    + cbn [flat_map]. by rewrite <- !app_assoc.
Qed.

(** X23. One call of [printi], whatever its arguments: job_no does not
    go down, goes up by one at most and not past job_count; job,
    job_count, skipped and interrupted stay; what was written stays and
    text is only added; without [log] nothing happens at all. *)
Theorem printi_step_invariants str_value h msg params log s out :
  let r := printi str_value h msg params log (s, out) in
  (job_no s <= job_no r.1 <= Z.max (job_no s) (job_count s))%Z
  /\ (job_no r.1 <= job_no s + 1)%Z
  /\ job_count r.1 = job_count s
  /\ job r.1 = job s
  /\ skipped r.1 = skipped s
  /\ interrupted r.1 = interrupted s
  /\ (exists text, r.2 = out ++ text)
  /\ (log = false -> r = (s, out)).
Proof.
  destruct log.
  - pose proof (printi_logged_status str_value h msg params s out) as Hs.
    cbv zeta. rewrite Hs.
    cbn [job_no job_count job skipped interrupted].
    assert (Hout : exists text,
      (printi str_value h msg params true (s, out)).2 = out ++ text).
    { unfold printi. cbn [snd].
      destruct (truthy h params); eexists; reflexivity. }
    destruct (Z.ltb_spec (job_no s) (job_count s));
      repeat split; try lia; try exact Hout; discriminate.
  - cbn [printi fst snd]. repeat split; try lia.
    exists []. by rewrite app_nil_r.
Qed.

(** X6. After a wrapped call that returned a value, job_count is 0, so
    [printi] no longer moves a job_no that is not negative until
    job_count is set again. *)
Theorem progress_is_frozen_after_wrapped_call
    host func extra_outputs args kw w v w' str_value h msgs out :
  wrap_gpu_call host func extra_outputs args kw w = (Ret v, w') ->
  (0 <= job_no (status w'))%Z ->
  job_no (printi_all str_value h msgs (status w', out)).1 =
  job_no (status w').
Proof.
  intros Hret Hno.
  assert (Hidle : idle_shape (status w')).
  { pose proof (returned_call_is_idle host func extra_outputs args kw w v)
      as H. rewrite Hret in H. by apply H. }
  destruct Hidle as (_ & _ & Hcount).
  destruct (printi_all_job_no str_value h msgs (status w') out) as (Hp & _).
  rewrite Hp, Hcount. lia.
Qed.

(** ** Names and tags *)

Lemma filter_filter_same {A} (p : A -> bool) (l : list A) :
  List.filter p (List.filter p l) = List.filter p l.
Proof.
  induction l as [|x l IH]; [done|]. cbn [List.filter].
  destruct (p x) eqn:E; [|exact IH]. cbn [List.filter]. by rewrite E, IH.
Qed.

Lemma filter_sublist {A} (p : A -> bool) (l : list A) :
  sublist (List.filter p l) l.
Proof.
  induction l as [|x l IH]; [constructor|]. cbn [List.filter].
  destruct (p x); by constructor.
Qed.

Lemma lstrip_no_space s :
  (forall c, In c s -> isspace c = false) -> lstrip s = s.
Proof.
  destruct s as [|c s]; [done|]. intros H. cbn [lstrip].
  by rewrite (H c (or_introl eq_refl)).
Qed.

Lemma strip_no_space s :
  (forall c, In c s -> isspace c = false) -> strip s = s.
Proof.
  intros H. unfold strip, rstrip. rewrite (lstrip_no_space s H).
  rewrite lstrip_no_space; [apply rev_involutive|].
  intros c Hc. apply H. by apply in_rev.
Qed.

Section NameFacts.

Variable unicode_isalnum : char -> bool.

(** X7. [sanitize_name] keeps, in their order, exactly the characters
    that are alphanumeric or one of '.', '_' and '-': the result holds no
    slash, backslash, space, comma or asterisk, and sanitizing it again
    changes nothing. *)
Theorem sanitize_name_output name :
  sanitize_name unicode_isalnum (sanitize_name unicode_isalnum name) =
    sanitize_name unicode_isalnum name
  /\ sublist (sanitize_name unicode_isalnum name) name
  /\ (forall c, In c (sanitize_name unicode_isalnum name) <->
        In c name /\ name_char unicode_isalnum c = true)
  /\ (forall c, In c (sanitize_name unicode_isalnum name) ->
        c <> 47 /\ c <> 92 /\ c <> chr_space /\ c <> chr_comma /\ c <> 42).
Proof.
  unfold sanitize_name. split; [apply filter_filter_same|].
  split; [apply filter_sublist|]. split; [intros c; apply filter_In|].
  intros c Hc. apply filter_In in Hc as [_ Hk].
  repeat split; intros ->; vm_compute in Hk; discriminate Hk.
Qed.

(** X8. The result of [sanitize_tags] holds no comma, although the last
    filter lets commas through, and no space; [sanitize_name] leaves it
    as it is. *)
Theorem sanitize_tags_output name :
  sanitize_name unicode_isalnum (sanitize_tags unicode_isalnum name) =
    sanitize_tags unicode_isalnum name
  /\ ~ In chr_comma (sanitize_tags unicode_isalnum name)
  /\ ~ In chr_space (sanitize_tags unicode_isalnum name)
  /\ (forall c, In c (sanitize_tags unicode_isalnum name) ->
        name_char unicode_isalnum c = true).
Proof.
  rewrite sanitize_tags_last_step. unfold sanitize_tags_step, sanitize_name.
  cbv zeta. split; [apply filter_filter_same|].
  assert (Hk : forall c,
    In c (List.filter (name_char unicode_isalnum)
            (strip (replace_char chr_space [chr_underscore]
                      (List.last (split_on chr_comma name) [])))) ->
    name_char unicode_isalnum c = true).
  { intros c Hc. by apply filter_In in Hc as [_ Hc]. }
  split; [|split; [|exact Hk]].
  - intros Hc. apply Hk in Hc. vm_compute in Hc. discriminate Hc.
  - intros Hc. apply Hk in Hc. vm_compute in Hc. discriminate Hc.
Qed.

(** X9. Text that ends in a comma has an empty last tag: the result of
    [sanitize_tags] is empty, whatever stands before the comma.  So is
    the result for empty text. *)
Theorem sanitize_tags_trailing_comma name :
  sanitize_tags unicode_isalnum (name ++ [chr_comma]) = []
  /\ sanitize_tags unicode_isalnum [] = [].
Proof.
  split; [|reflexivity].
  rewrite sanitize_tags_last_step, split_on_app.
  rewrite last_app_nonempty by apply split_on_nonempty. reflexivity.
Qed.

(** X10. [sanitize_tags] is idempotent: its result has no comma and no
    white space at either end, so a second pass finds one tag and keeps
    it.  Outside ASCII this rests on no white-space character being
    alphanumeric. *)
Theorem sanitize_tags_idempotent name :
  (forall c, 128 <= c -> isspace c = true -> unicode_isalnum c = false) ->
  sanitize_tags unicode_isalnum (sanitize_tags unicode_isalnum name) =
  sanitize_tags unicode_isalnum name.
Proof.
  intros Huni.
  set (r := sanitize_tags unicode_isalnum name).
  assert (Hk : forall c, In c r -> name_char unicode_isalnum c = true).
  { unfold r. rewrite sanitize_tags_last_step.
    intros c Hc. by apply filter_In in Hc as [_ Hc]. }
  assert (Hfix : List.filter (name_char unicode_isalnum) r = r).
  { unfold r. rewrite sanitize_tags_last_step. apply filter_filter_same. }
  rewrite sanitize_tags_last_step.
  rewrite split_on_no_sep.
  2:{ intros Hc. apply Hk in Hc. vm_compute in Hc. discriminate Hc. }
  cbn [List.last]. unfold sanitize_tags_step. cbv zeta.
  rewrite replace_char_absent.
  2:{ intros Hc. apply Hk in Hc. vm_compute in Hc. discriminate Hc. }
  rewrite strip_no_space; [exact Hfix|].
  intros c Hc. destruct (isspace c) eqn:E; [|done].
  specialize (Hk c Hc).
  rewrite (isspace_not_kept unicode_isalnum Huni c E) in Hk.
  discriminate Hk.
Qed.

(** X11. [isset] is false for [None], for empty text and for ["*"], and
    true for every other value.  A sanitized name is never ["*"], so it
    is set exactly when it is not empty. *)
Theorem isset_of_sanitized_name :
  (forall val, isset val = false <->
     val = VNone \/ val = VStr [] \/ val = VStr (py "*"))
  /\ (forall name,
        isset (VStr (sanitize_name unicode_isalnum name)) = true <->
        sanitize_name unicode_isalnum name <> []).
Proof.
  assert (Hchar : forall val, isset val = false <->
     val = VNone \/ val = VStr [] \/ val = VStr (py "*")).
  { intros val. unfold isset, is_not_None, ne_text.
    destruct val; cbn [andb]; try (split; [discriminate|];
      intros [H|[H|H]]; discriminate H).
    - split; [by left|done].
    - repeat case_bool_decide; subst; cbn [negb andb].
      + split; [by right; left|done].
      + split; [by right; left|done].
      + split; [by right; right|done].
      + split; [discriminate|]. intros [E|[E|E]]; congruence. }
  split; [exact Hchar|]. intros name.
  destruct (isset (VStr (sanitize_name unicode_isalnum name))) eqn:E.
  - split; [|done]. intros _ Hnil. rewrite Hnil in E. discriminate E.
  - split; [discriminate|]. intros Hne. exfalso.
    apply Hchar in E as [E|[E|E]]; [discriminate E|congruence|].
    injection E as E.
    assert (Hin : In 42 (sanitize_name unicode_isalnum name))
      by (rewrite E; by left).
    apply filter_In in Hin as [_ Hk]. vm_compute in Hk. discriminate Hk.
Qed.

End NameFacts.

Lemma sanitize_tags_idempotent_witness :
  sanitize_tags (fun c => c =? 233)
    (sanitize_tags (fun c => c =? 233) (py "style, my tag!")) =
  sanitize_tags (fun c => c =? 233) (py "style, my tag!").
Proof.
  apply (sanitize_tags_idempotent (fun c => c =? 233)).
  intros c Hc Hsp. unfold isspace in Hsp.
  rewrite !orb_true_iff, !andb_true_iff, !N.leb_le, !N.eqb_eq in Hsp.
  apply N.eqb_neq. lia.
Defined.

(** ** Searching and listing *)

Lemma is_prefix_spec p s :
  is_prefix p s = true <-> exists post, s = p ++ post.
Proof.
  revert s. induction p as [|a p IH]; intros s.
  - split; [intros _; by exists s|done].
  - destruct s as [|b s]; cbn [is_prefix].
    + split; [discriminate|]. intros [post H]. discriminate H.
    + rewrite andb_true_iff, N.eqb_eq, IH. split.
      * intros [-> [post ->]]. by exists post.
      * intros [post H]. injection H as -> ->. split; [done|by exists post].
Qed.

Lemma is_substring_spec sub s :
  is_substring sub s = true <-> occurs_in sub s.
Proof.
  unfold occurs_in. induction s as [|c s IH]; cbn [is_substring].
  - rewrite is_prefix_spec. split.
    + intros [post H]. by exists [], post.
    + intros (pre & post & H). symmetry in H.
      apply app_eq_nil in H as [-> H]. exists post. by rewrite H.
  - rewrite orb_true_iff, is_prefix_spec, IH. split.
    + intros [[post H]|(pre & post & H)].
      * by exists [], post.
      * exists (c :: pre), post. by rewrite H.
    + intros (pre & post & H). destruct pre as [|c' pre].
      * left. by exists post.
      * right. injection H as -> H. by exists pre, post.
Qed.

Lemma checkpoint_test_spec search_string info :
  is_substring search_string (title info)
  || is_substring search_string (model_name info)
  || is_substring search_string (filename info) = true
  <-> checkpoint_matches search_string info.
Proof.
  unfold checkpoint_matches.
  rewrite !orb_true_iff, !is_substring_spec. tauto.
Qed.

(** X12. [get_checkpoint_match] returns [None] exactly when the search
    text occurs in the title, the model name and the file name of no
    checkpoint. *)
Theorem get_checkpoint_match_none checkpoints_list search_string :
  get_checkpoint_match checkpoints_list search_string = None <->
  forall info, In info checkpoints_list ->
    ~ checkpoint_matches search_string info.
Proof.
  induction checkpoints_list as [|i l IH]; cbn [get_checkpoint_match].
  - split; [intros _ info []|done].
  - pose proof (checkpoint_test_spec search_string i) as Hi.
    destruct (is_substring search_string (title i)
              || is_substring search_string (model_name i)
              || is_substring search_string (filename i)).
    + split; [discriminate|]. intros H. exfalso.
      apply (H i); [by left|]. by apply Hi.
    + rewrite IH. split.
      * intros H info [<-|Hin]; [|by apply H].
        intros Hm. apply Hi in Hm. discriminate Hm.
      * intros H info Hin. apply H. by right.
Qed.

(** X13. What [get_checkpoint_match] returns is the first checkpoint, in
    the order of the dictionary, that the search text occurs in: it is
    an entry of the dictionary, it matches, and no entry before it
    does. *)
Theorem get_checkpoint_match_first checkpoints_list search_string info :
  get_checkpoint_match checkpoints_list search_string = Some info <->
  exists before after,
    checkpoints_list = before ++ info :: after
    /\ checkpoint_matches search_string info
    /\ forall i, In i before -> ~ checkpoint_matches search_string i.
Proof.
  induction checkpoints_list as [|i l IH]; cbn [get_checkpoint_match].
  - split; [discriminate|]. intros (before & after & H & _).
    by destruct before.
  - pose proof (checkpoint_test_spec search_string i) as Hi.
    destruct (is_substring search_string (title i)
              || is_substring search_string (model_name i)
              || is_substring search_string (filename i)).
    + split.
      * intros [= <-]. exists [], l. split; [done|].
        split; [by apply Hi|intros ? []].
      * intros (before & after & H & Hm & Hno).
        destruct before as [|b before]; [by injection H as ->|].
        injection H as <- _. exfalso.
        apply (Hno i); [by left|]. by apply Hi.
    + rewrite IH. split.
      * intros (before & after & -> & Hm & Hno).
        exists (i :: before), after. split; [done|]. split; [done|].
        intros j [<-|Hj]; [|by apply Hno].
        intros Hj. apply Hi in Hj. discriminate Hj.
      * intros (before & after & H & Hm & Hno).
        destruct before as [|b before].
        -- injection H as -> _. apply Hi in Hm. discriminate Hm.
        -- injection H as <- ->. exists before, after.
           split; [done|]. split; [done|].
           intros j Hj. apply Hno. by right.
Qed.

(** X14. Empty search text occurs in every title: with it
    [get_checkpoint_match] returns the first checkpoint of the
    dictionary, and [None] only for an empty dictionary. *)
Theorem get_checkpoint_match_empty_search checkpoints_list :
  get_checkpoint_match checkpoints_list [] = head checkpoints_list.
Proof.
  destruct checkpoints_list as [|i l]; [done|].
  cbn [get_checkpoint_match head].
  assert (H : is_substring [] (title i) = true).
  { apply is_substring_spec. by exists [], (title i). }
  by rewrite H.
Qed.

(** A loop that appends the elements passing a test builds the filtered
    list after what was there. *)
Lemma fold_left_append_filter {A} (f : list A -> A -> list A)
    (p : A -> bool) (l acc : list A) :
  (forall out x, f out x = if p x then out ++ [x] else out) ->
  fold_left f l acc = acc ++ List.filter p l.
Proof.
  intros Hf. revert acc. induction l as [|x l IH]; intros acc.
  - by rewrite app_nil_r.
  - cbn [fold_left List.filter]. rewrite IH, Hf.
    destruct (p x); [by rewrite <- app_assoc|done].
Qed.

(** X15. When the [lora] directory is missing, [get_lora_models]
    returns the empty name alone.  When it exists and [os.listdir]
    raises, as for a regular file of that name, that is raised.  When
    [os.listdir] returns, the result starts with the empty name and
    goes on, in the order of the listing, with exactly the entries that
    are files, have [.pt] somewhere in their name and [_txt.pt]
    nowhere. *)
Theorem get_lora_models_entries fs cmd_lora_models_path models_path :
  let out_dir :=
    path_join fs (model_dir_of fs cmd_lora_models_path models_path)
      (py "lora") in
  (path_exists fs out_dir = false ->
   get_lora_models fs cmd_lora_models_path models_path = Ret [[]])
  /\ (forall e, path_exists fs out_dir = true ->
        listdir fs out_dir = Raise e ->
        get_lora_models fs cmd_lora_models_path models_path = Raise e)
  /\ (forall entries, path_exists fs out_dir = true ->
        listdir fs out_dir = Ret entries ->
        exists found,
          get_lora_models fs cmd_lora_models_path models_path
            = Ret ([] :: found)
          /\ sublist found entries
          /\ forall x, In x found <->
               In x entries
               /\ path_isfile fs (path_join fs out_dir x) = true
               /\ occurs_in (py ".pt") x
               /\ ~ occurs_in (py "_txt.pt") x).
Proof.
  intros out_dir. unfold get_lora_models. cbv zeta. fold out_dir.
  split; [by intros ->|]. split; [by intros e -> ->|].
  intros entries -> ->.
  rewrite (fold_left_append_filter _
    (fun x => path_isfile fs (path_join fs out_dir x)
              && (negb (is_substring (py "_txt.pt") x)
                  && is_substring (py ".pt") x))).
  2:{ intros out x. by destruct (path_isfile fs (path_join fs out_dir x)). }
  eexists. split; [reflexivity|].
  split; [apply filter_sublist|]. intros x.
  rewrite filter_In, !andb_true_iff, negb_true_iff, is_substring_spec.
  rewrite <- not_true_iff_false, is_substring_spec. tauto.
Qed.

(** X16. When the [dreambooth] directory is missing, [get_db_models]
    returns the empty list.  When it exists and [os.listdir] raises, as
    for a regular file of that name, that is raised.  When [os.listdir]
    returns, the result is, in the order of the listing, exactly the
    entries that are directories. *)
Theorem get_db_models_entries fs cmd_dreambooth_models_path models_path :
  let out_dir :=
    path_join fs (model_dir_of fs cmd_dreambooth_models_path models_path)
      (py "dreambooth") in
  (path_exists fs out_dir = false ->
   get_db_models fs cmd_dreambooth_models_path models_path = Ret [])
  /\ (forall e, path_exists fs out_dir = true ->
        listdir fs out_dir = Raise e ->
        get_db_models fs cmd_dreambooth_models_path models_path = Raise e)
  /\ (forall entries, path_exists fs out_dir = true ->
        listdir fs out_dir = Ret entries ->
        exists found,
          get_db_models fs cmd_dreambooth_models_path models_path
            = Ret found
          /\ sublist found entries
          /\ forall x, In x found <->
               In x entries
               /\ path_isdir fs (path_join fs out_dir x) = true).
Proof.
  intros out_dir. unfold get_db_models. cbv zeta. fold out_dir.
  split; [by intros ->|]. split; [by intros e -> ->|].
  intros entries -> ->.
  rewrite (fold_left_append_filter _
    (fun x => path_isdir fs (path_join fs out_dir x))) by done.
  cbn [app]. eexists. split; [reflexivity|].
  split; [apply filter_sublist|]. intros x. rewrite filter_In. tauto.
Qed.

(** ** Image formats *)

Lemma str_in_spec x l : str_in x l = true <-> In x l.
Proof.
  unfold str_in. rewrite existsb_exists. split.
  - intros (y & Hy & Hxy). apply bool_decide_eq_true in Hxy. by subst.
  - intros Hx. exists x. split; [done|]. by apply bool_decide_eq_true.
Qed.

Lemma add_extensions_In pil_features extensions x :
  In x (add_extensions pil_features extensions) <->
  In x pil_features \/ In x extensions.
Proof.
  unfold add_extensions. revert pil_features.
  induction extensions as [|ext exts IH]; intros acc; cbn [fold_left].
  - cbn [In]. tauto.
  - rewrite IH. destruct (str_in ext acc) eqn:E.
    + apply str_in_spec in E. cbn [In]. split; [tauto|].
      intros [H|[<-|H]]; tauto.
    + rewrite in_app_iff. cbn [In]. tauto.
Qed.

Lemma add_extensions_NoDup pil_features extensions :
  List.NoDup pil_features ->
  List.NoDup (add_extensions pil_features extensions).
Proof.
  unfold add_extensions. revert pil_features.
  induction extensions as [|ext exts IH]; intros acc Hacc; [done|].
  cbn [fold_left]. apply IH. destruct (str_in ext acc) eqn:E; [done|].
  apply NoDup_ListNoDup, NoDup_app. split; [by apply NoDup_ListNoDup|].
  split; [|apply NoDup_singleton].
  intros y Hy Hy'. apply list_elem_of_singleton in Hy'. subst y.
  apply list_elem_of_In, str_in_spec in Hy. congruence.
Qed.

Lemma split_str_from_nonempty sep s skip cur :
  split_str_from sep s skip cur <> [].
Proof.
  revert skip cur. induction s as [|c s IH]; intros skip cur; [done|].
  cbn [split_str_from]. destruct skip; [|apply IH].
  destruct (is_prefix sep (c :: s)); [done|apply IH].
Qed.

(** A text without the separator is one field; with it, more. *)
Lemma split_str_from_single sep s skip cur :
  sep <> [] ->
  (exists only, split_str_from sep s skip cur = [only])
  <-> is_substring sep (drop skip s) = false.
Proof.
  intros Hsep. revert skip cur.
  induction s as [|c s IH]; intros skip cur.
  - rewrite drop_nil. cbn [split_str_from is_substring].
    destruct sep; [done|]. split; [done|]. intros _. by eexists.
  - destruct skip as [|k]; cbn [split_str_from]; [|by rewrite IH].
    rewrite drop_0. cbn [is_substring].
    destruct (is_prefix sep (c :: s)) eqn:E; cbn [orb].
    + split; [|discriminate]. intros [only H]. injection H as _ H.
      by apply split_str_from_nonempty in H.
    + rewrite IH, drop_0. done.
Qed.

Lemma split_str_second_field sep s :
  sep <> [] ->
  split_str sep s !! 1%nat = None <-> is_substring sep s = false.
Proof.
  intros Hsep. unfold split_str.
  rewrite <- (drop_0 s) at 2.
  rewrite <- (split_str_from_single sep s 0 [] Hsep).
  pose proof (split_str_from_nonempty sep s 0 []) as Hne.
  destruct (split_str_from sep s 0 []) as [|x [|y l]]; [done| |].
  - split; [by eexists|done].
  - split; [discriminate|]. intros [only H]. discriminate H.
Qed.

Lemma list_features_lines_raises lines pil_features :
  (forall e, list_features_lines lines pil_features = Raise e ->
     e = index_error)
  /\ ((exists e, list_features_lines lines pil_features = Raise e) <->
      exists line,
        In line lines /\ occurs_in (py "Extensions:") line
        /\ ~ occurs_in (py ": ") line).
Proof.
  revert pil_features.
  induction lines as [|line rest IH]; intros acc; cbn [list_features_lines].
  - split; [discriminate|]. split; [intros [e H]; discriminate H|].
    intros (line & [] & _).
  - pose proof (is_substring_spec (py "Extensions:") line) as Hext.
    pose proof (is_substring_spec (py ": ") line) as Hsep.
    destruct (is_substring (py "Extensions:") line) eqn:E.
    + pose proof (split_str_second_field (py ": ") line) as Hsec.
      destruct (split_str (py ": ") line !! 1%nat) as [ext_list|] eqn:E2.
      * destruct (IH (add_extensions acc (split_str (py ", ") ext_list)))
          as [IH1 IH2].
        split; [exact IH1|]. rewrite IH2. split.
        -- intros (l & Hl & H). exists l. split; [by right|done].
        -- intros (l & [<-|Hl] & H1 & H2); [|by exists l].
           exfalso. destruct (Hsec ltac:(done)) as [_ Hs].
           destruct (is_substring (py ": ") line); [by apply H2, Hsep|].
           discriminate (Hs eq_refl).
      * split; [by intros e [= <-]|]. split; [|by eexists].
        intros _. exists line. split; [by left|]. split; [by apply Hext|].
        intros Hocc. apply Hsep in Hocc.
        destruct (Hsec ltac:(done)) as [Hs _]. rewrite (Hs eq_refl) in Hocc.
        discriminate Hocc.
    + destruct (IH acc) as [IH1 IH2]. split; [exact IH1|].
      rewrite IH2. split.
      * intros (l & Hl & H). exists l. split; [by right|done].
      * intros (l & [<-|Hl] & H1 & H2); [|by exists l].
        apply Hext in H1. discriminate H1.
Qed.

Lemma list_features_lines_ret lines pil_features feats :
  list_features_lines lines pil_features = Ret feats ->
  (List.NoDup pil_features -> List.NoDup feats)
  /\ forall x, In x feats <->
       In x pil_features
       \/ exists line ext_list,
            In line lines /\ occurs_in (py "Extensions:") line
            /\ split_str (py ": ") line !! 1%nat = Some ext_list
            /\ In x (split_str (py ", ") ext_list).
Proof.
  revert pil_features.
  induction lines as [|line rest IH]; intros acc; cbn [list_features_lines].
  - intros [= <-]. split; [done|]. intros x. split; [by left|].
    intros [H|(l & e & [] & _)]. done.
  - pose proof (is_substring_spec (py "Extensions:") line) as Hext.
    destruct (is_substring (py "Extensions:") line) eqn:E.
    + destruct (split_str (py ": ") line !! 1%nat) as [ext_list|] eqn:E2;
        [|discriminate].
      intros H. apply IH in H as [Hnd Hin]. split.
      * intros Hacc. by apply Hnd, add_extensions_NoDup.
      * intros x. rewrite Hin, add_extensions_In. split.
        -- intros [[H|H]|(l & e & Hl & H)]; [by left| |].
           ++ right. exists line, ext_list.
              split; [by left|]. split; [by apply Hext|done].
           ++ right. exists l, e. split; [by right|done].
        -- intros [H|(l & e & [<-|Hl] & H1 & H2 & H3)]; [by left; left| |].
           ++ rewrite E2 in H2. injection H2 as <-. by left; right.
           ++ right. by exists l, e.
    + intros H. apply IH in H as [Hnd Hin]. split; [exact Hnd|].
      intros x. rewrite Hin. split.
      * intros [H|(l & e & Hl & H)]; [by left|].
        right. exists l, e. split; [by right|done].
      * intros [H|(l & e & [<-|Hl] & H1 & H2)]; [by left| |].
        -- apply Hext in H1. discriminate H1.
        -- right. by exists l, e.
Qed.

(** X17. When [list_features] returns, its list has no duplicates, and
    holds exactly the fields, separated by [", "], of the second
    [": "]-separated field of the lines that contain ["Extensions:"]. *)
Theorem list_features_entries text feats :
  list_features text = Ret feats ->
  List.NoDup feats
  /\ forall x, In x feats <->
       exists line ext_list,
         In line (splitlines text) /\ occurs_in (py "Extensions:") line
         /\ split_str (py ": ") line !! 1%nat = Some ext_list
         /\ In x (split_str (py ", ") ext_list).
Proof.
  unfold list_features. intros H.
  apply list_features_lines_ret in H as [Hnd Hin].
  split; [apply Hnd; constructor|]. intros x. rewrite Hin.
  split; [intros [[]|H]; exact H|by right].
Qed.

(** X18. [list_features] raises exactly when some line of the report
    contains ["Extensions:"] but not [": "], so that the split has no
    second field; what it raises is the [IndexError] of line 233. *)
Theorem list_features_index_error text :
  (forall e, list_features text = Raise e -> e = index_error)
  /\ ((exists e, list_features text = Raise e) <->
      exists line,
        In line (splitlines text) /\ occurs_in (py "Extensions:") line
        /\ ~ occurs_in (py ": ") line).
Proof. unfold list_features. apply list_features_lines_raises. Qed.

(** ** Image files *)






(** X20. [get_images] on a path that does not exist returns the empty
    list; on a regular file it raises the [NotADirectoryError] of
    [iterdir()]; and whatever the path, an error of [list_features()]
    comes first. *)
Theorem get_images_edges ih :
  (forall e root path,
     list_features (pilinfo_text ih) = Raise e ->
     get_images ih root path = Raise e)
  /\ (forall feats path,
        list_features (pilinfo_text ih) = Ret feats ->
        get_images ih None path = Ret []
        /\ forall name,
             get_images ih (Some (FsFile name)) path =
             Raise (not_a_directory_error ih path)).
Proof.
  split.
  - intros e root path He. unfold get_images.
    destruct root as [[name|d children]|]; cbn [get_images_at];
      by rewrite He.
  - intros feats path Hf. unfold get_images. rewrite Hf.
    split; [done|]. intros name. cbn [get_images_at]. by rewrite Hf.
Qed.



(** ** Scenarios of the edges *)



Lemma no_diagnostics_witness :
  stderr (wrap_gpu_call demo_host (return_value (VInt 1)) VNone [] []
            one_list_world).2 = stderr one_list_world
  /\ heap (wrap_gpu_call demo_host (return_value (VInt 1)) VNone [] []
             one_list_world).2 = heap one_list_world.
Proof.
  apply (no_diagnostics_without_handler demo_host (return_value (VInt 1))
           VNone [] [] one_list_world (Ret (VInt 1)) one_list_world).
  - reflexivity.
  - intros e He. discriminate He.
Defined.


Lemma dump_error_witness :
  exists w',
    wrap_gpu_call failing_str_host (raise_exn value_error_bad_size) VNone
      [] [] (empty_world busy_status) = (Raise str_limit_error, w')
    /\ stderr w' = [] ++ py "Error completing request" ++ [chr_newline]
    /\ status w' = busy_status
    /\ heap w' = ∅.
Proof.
  apply (dump_error_leaves_wrapper failing_str_host
           (raise_exn value_error_bad_size) VNone [] []
           (empty_world busy_status) value_error_bad_size
           (empty_world busy_status) str_limit_error).
  - reflexivity.
  - reflexivity.
  - reflexivity.
Defined.

Lemma progress_frozen_witness :
  job_no
    (printi_all (fun _ _ => []) ∅ [py "Saving"; py "Done"]
       (status (final_reset (empty_world busy_status)), [])).1
  = job_no (status (final_reset (empty_world busy_status))).
Proof.
  apply (progress_is_frozen_after_wrapped_call demo_host
           (return_value (VInt 1)) VNone [] [] (empty_world busy_status)
           (VInt 1) (final_reset (empty_world busy_status))
           (fun _ _ => []) ∅ [py "Saving"; py "Done"] []).
  - reflexivity.
  - vm_compute. discriminate.
Defined.

Lemma list_features_witness :
  List.NoDup demo_features
  /\ forall x, In x demo_features <->
       exists line ext_list,
         In line (splitlines demo_pilinfo)
         /\ occurs_in (py "Extensions:") line
         /\ split_str (py ": ") line !! 1%nat = Some ext_list
         /\ In x (split_str (py ", ") ext_list).
Proof.
  apply (list_features_entries demo_pilinfo demo_features).
  vm_compute. reflexivity.
Defined.

Lemma list_features_raise_witness :
  exists e, list_features (py "Extensions:.bmp") = Raise e.
Proof.
  apply (proj2 (proj2 (list_features_index_error (py "Extensions:.bmp")))).
  exists (py "Extensions:.bmp"). split; [by left|]. split.
  - by exists [], (py ".bmp").
  - intros Hocc. apply is_substring_spec in Hocc. vm_compute in Hocc.
    discriminate Hocc.
Defined.


Lemma get_images_edges_witness :
  get_images demo_image_host None [py "missing"] = Ret []
  /\ forall name,
       get_images demo_image_host (Some (FsFile name)) [py "missing"] =
       Raise (not_a_directory_error demo_image_host [py "missing"]).
Proof.
  apply (proj2 (get_images_edges demo_image_host) demo_features
           [py "missing"]).
  vm_compute. reflexivity.
Defined.



Lemma get_lora_models_witness :
  exists found,
    get_lora_models demo_fs None (py "models") = Ret ([] :: found)
    /\ sublist found [py "a.pt"; py "a_txt.pt"; py "notes.md"; py "b.pt"]
    /\ forall x, In x found <->
         In x [py "a.pt"; py "a_txt.pt"; py "notes.md"; py "b.pt"]
         /\ path_isfile demo_fs (path_join demo_fs (py "models/lora") x)
            = true
         /\ occurs_in (py ".pt") x
         /\ ~ occurs_in (py "_txt.pt") x.
Proof.
  apply (proj2 (proj2 (get_lora_models_entries demo_fs None (py "models")))
           [py "a.pt"; py "a_txt.pt"; py "notes.md"; py "b.pt"]).
  - reflexivity.
  - reflexivity.
Defined.

Lemma get_db_models_witness :
  get_db_models demo_fs None (py "models") = Raise listdir_error.
Proof.
  apply (proj1 (proj2 (get_db_models_entries demo_fs None (py "models")))
           listdir_error).
  - reflexivity.
  - reflexivity.
Defined.

Example get_lora_models_demo :
  get_lora_models demo_fs None (py "models") = Ret [[]; py "a.pt"; py "b.pt"].
Proof. vm_compute. reflexivity. Qed.
